(** * backend/vault.go: token renewal loop and secret read path

    A shallow embedding of [src/backend/vault.go].  Go values of type
    [interface{}] are a small inductive universe, [map[string]interface{}]
    is a [gmap string value], a pointer that may be nil is an [option], and
    the calls to the Vault API client, the logger and the metrics are events
    of a trace.  A Go panic is an outcome of its own. *)

From Stdlib Require Import ZArith String Ascii List Bool Lia.
From stdpp Require Import gmap strings.

Open Scope string_scope.
Open Scope list_scope.
Open Scope Z_scope.

(** ** Go values *)

#[local] Set Warnings "-register-all".

(** What [encoding/json] with [UseNumber] leaves in an [interface{}]. *)
Inductive value :=
| VNil
| VBool (b : bool)
| VNumber (n : string)          (* json.Number is a string type *)
| VString (s : string)
| VList (l : list value)
| VMap (m : gmap string value).

(** [api.Secret], with the fields this file reads. [Data] may be a nil map. *)
Record Secret := {
  Data : option (gmap string value);
  Warnings : list string
}.

(** [m[key]] on a Go map: the zero value (nil interface) when the map is nil
    or the key is absent. *)
Definition index (m : option (gmap string value)) (key : string) : value :=
  match m with
  | None => VNil
  | Some m => default VNil (m !! key)
  end.

(** [x != nil] on an interface value. *)
Definition notNil (v : value) : bool :=
  match v with VNil => false | _ => true end.

(** ** Errors *)

(** The error type constants of the [errors] package. *)
Inductive errorType :=
| UnknownErrorType
| BackendSecretNotFoundErrorType
| VaultTokenNotRenewableErrorType.

Inductive numErr := ErrSyntax | ErrRange.

Inductive error :=
| ApiError (msg : string)                     (* an error of the Vault API client, opaque *)
| NumError (num : string) (e : numErr)        (* *strconv.NumError *)
| BackendSecretNotFoundError (ErrType : errorType) (Path Key : string)
| VaultTokenNotRenewableError (ErrType : errorType).

(** ** Events *)

Inductive level := Info | Warning | Error.

(** [logger] is the package variable, [Logrus] the library's standard logger
    (line 122 logs through [log.Errorf]). *)
Inductive sink := logger | Logrus.

Inductive arg := AErr (e : error) | AInt (n : Z).

Inductive tokenExpiry := vaultTokenExpired | vaultTokenNotExpired.

Inductive metric :=
| updateVaultTokenLookupErrorsCountMetric (t : errorType)
| updateVaultTokenTTLMetric (ttl : Z)
| updateVaultTokenExpiredMetric (v : tokenExpiry)
| updateVaultTokenRenewErrorsCountMetric (t : errorType)
| updateVaultSecretReadErrorsCountMetric (path key : string) (t : errorType).

(** Network calls of the Vault API client. *)
Inductive call :=
| LookupSelf
| RenewSelf (increment : Z)
| Read (path : string).

Inductive event :=
| Call (c : call)
| Log (s : sink) (l : level) (fmt : string) (args : list arg)
| Metric (m : metric).

(** ** Outcomes: a trace of events, then a result or a panic *)

Inductive panic :=
| NilDereference
| InterfaceConversion (want : string) (got : value).

Inductive outcome (A : Type) :=
| Done (a : A)
| Panicked (p : panic).
Arguments Done {A} a.
Arguments Panicked {A} p.

Definition M (A : Type) : Type := list event * outcome A.

Definition ret {A} (a : A) : M A := ([], Done a).

Definition bind {A B} (m : M A) (k : A -> M B) : M B :=
  match m with
  | (tr, Done a) => let '(tr', r) := k a in (tr ++ tr', r)
  | (tr, Panicked p) => (tr, Panicked p)
  end.

Definition emit (e : event) : M unit := ([e], Done tt).
Definition throw {A} (p : panic) : M A := ([], Panicked p).

Notation "x <- m ;; k" := (bind m (fun x => k))
  (at level 62, m at next level, right associativity).
Notation "m ;;; k" := (bind m (fun _ => k))
  (at level 62, right associativity).

(** ** strconv.ParseInt(s, 10, 64), as [json.Number.Int64] calls it *)

Definition maxUint64 : Z := 2 ^ 64 - 1.

Definition digit (a : ascii) : option Z :=
  let c := Z.of_N (N_of_ascii a) in
  if (48 <=? c) && (c <=? 57) then Some (c - 48) else None.

(** The digit loop of [ParseUint]: a character that is not a decimal digit
    is a syntax error, an accumulator past 64 bits a range error. *)
Fixpoint ParseUint_loop (s : string) (n : Z) : Z + numErr :=
  match s with
  | EmptyString => inl n
  | String a r =>
      match digit a with
      | None => inr ErrSyntax
      | Some d =>
          let n1 := n * 10 + d in
          if maxUint64 <? n1 then inr ErrRange else ParseUint_loop r n1
      end
  end.

Definition ParseUint (s : string) : Z + numErr :=
  match s with
  | EmptyString => inr ErrSyntax
  | _ => ParseUint_loop s 0
  end.

Definition ParseInt (s0 : string) : Z * option error :=
  match s0 with
  | EmptyString => (0, Some (NumError s0 ErrSyntax))
  | String a r =>
      let '(neg, s) :=
        if Ascii.eqb a "+" then (false, r)
        else if Ascii.eqb a "-" then (true, r)
        else (false, s0) in
      let cutoff := 2 ^ 63 in
      match ParseUint s with
      | inr ErrSyntax => (0, Some (NumError s0 ErrSyntax))
      | inr ErrRange =>
          if neg then (- cutoff, Some (NumError s0 ErrRange))
          else (cutoff - 1, Some (NumError s0 ErrRange))
      | inl un =>
          if negb neg && (cutoff <=? un) then (cutoff - 1, Some (NumError s0 ErrRange))
          else if neg && (cutoff <? un) then (- cutoff, Some (NumError s0 ErrRange))
          else (if neg then - un else un, None)
      end
  end.

(** [json.Number.Int64]. *)
Definition Int64 (n : string) : Z * option error := ParseInt n.

(** ** The client *)

(** The [engine] interface: the payload of a response, or a nil map. *)
Record engine := {
  getData : Secret -> option (gmap string value)
}.

(** [api.Logical]: what a read at a path answers, as Go's pair of a
    response that may be nil and an error that may be nil.  The errors of
    the Vault API client are opaque messages; they reach this package's
    [error] type through [ApiError]. *)
Record Logical := {
  logicalRead : string -> option Secret * option string
}.

Record client := {
  logical : Logical;
  maxTokenTTL : Z;
  tokenPollingPeriod : Z;
  renewTTLIncrement : Z;
  c_engine : engine
}.

Definition defaultSecretKey : string := "data".

(** What the outside world does during one turn of the renewal loop: which
    case of the [select] fires, and what the store answers to a token lookup
    and to a renewal, should the loop issue them. *)
Inductive wake := TimerFired | CtxDone.

Record tick := {
  woke : wake;
  lookupSelf : option Secret * option string;
  renewSelf : option string
}.

Section Backend.

(** [api.Secret.TokenIsRenewable], a method of the Vault API client library. *)
Variable TokenIsRenewable : option Secret -> bool * option string.

Definition getToken (c : client) (t : tick) : M (option Secret * option error) :=
  emit (Call LookupSelf) ;;;
  let '(lookup, err) := lookupSelf t in
  match err with
  | Some e =>
      let err := ApiError e in
      emit (Log logger Error "error checking token with lookup self api: %v" [AErr err]) ;;;
      emit (Metric (updateVaultTokenLookupErrorsCountMetric UnknownErrorType)) ;;;
      ret (None, Some err)
  | None => ret (lookup, None)
  end.

Definition getTokenTTL (c : client) (token : option Secret) : M (Z * option error) :=
  match token with
  | None => throw NilDereference
  | Some tok =>
      match index (Data tok) "ttl" with
      | VNumber n =>
          let '(ttl, err) := Int64 n in
          match err with
          | Some e =>
              emit (Log logger Error "couldn't decode ttl from token: %v" [AErr e]) ;;;
              ret (-1, Some e)
          | None =>
              emit (Metric (updateVaultTokenTTLMetric ttl)) ;;;
              ret (ttl, None)
          end
      | v => throw (InterfaceConversion "json.Number" v)
      end
  end.

Definition shouldRenewToken (c : client) (ttl : Z) : M bool :=
  if ttl <? maxTokenTTL c then
    emit (Metric (updateVaultTokenExpiredMetric vaultTokenExpired)) ;;;
    ret true
  else
    emit (Metric (updateVaultTokenExpiredMetric vaultTokenNotExpired)) ;;;
    ret false.

Definition renewToken (c : client) (t : tick) (token : option Secret) : M (option error) :=
  let '(isRenewable, err) := TokenIsRenewable token in
  match err with
  | Some e =>
      let err := ApiError e in
      emit (Log logger Error "could not check token renewability: %v" [AErr err]) ;;;
      emit (Metric (updateVaultTokenRenewErrorsCountMetric UnknownErrorType)) ;;;
      ret (Some err)
  | None =>
      if negb isRenewable then
        emit (Metric (updateVaultTokenRenewErrorsCountMetric VaultTokenNotRenewableErrorType)) ;;;
        ret (Some (VaultTokenNotRenewableError VaultTokenNotRenewableErrorType))
      else
        emit (Call (RenewSelf (renewTTLIncrement c))) ;;;
        match renewSelf t with
        | Some e =>
            let err := ApiError e in
            emit (Log Logrus Error "failed to renew token: %v" [AErr err]) ;;;
            emit (Metric (updateVaultTokenRenewErrorsCountMetric UnknownErrorType)) ;;;
            ret (Some err)
        | None => ret None
        end
  end.

(** One turn of the [for]/[select] of the goroutine: [true] when the loop
    goes round again, [false] when the goroutine returns. *)
Definition iteration (c : client) (t : tick) : M bool :=
  match woke t with
  | TimerFired =>
      r <- getToken c t ;;
      let '(token, err) := r in
      match err with
      | Some e =>
          emit (Log logger Error "failed to fetch token: %v" [AErr e]) ;;;
          ret false
      | None =>
          r <- getTokenTTL c token ;;
          let '(ttl, err) := r in
          match err with
          | Some e =>
              emit (Log logger Error "failed to read token TTL: %v" [AErr e]) ;;;
              ret false
          | None =>
              renew <- shouldRenewToken c ttl ;;
              if (renew : bool) then
                emit (Log logger Warning "token is really close to expire, current ttl: %d" [AInt ttl]) ;;;
                err <- renewToken c t token ;;
                match err with
                | Some e =>
                    emit (Log logger Error "could not renew token: %v" [AErr e]) ;;;
                    ret true
                | None =>
                    emit (Log logger Info "token renewed successfully!" []) ;;;
                    ret true
                end
              else ret false
          end
      end
  | CtxDone =>
      emit (Log logger Info "gracefully shutting down token renewal go routine" []) ;;;
      ret false
  end.

(** How far the goroutine got on a finite schedule of the outside world. *)
Inductive status :=
| Waiting                 (* blocked in the [select], schedule used up *)
| Returned                (* the goroutine returned *)
| Crashed (p : panic).    (* the goroutine panicked *)

(** The goroutine of [startTokenRenewer], run against a schedule. *)
Fixpoint startTokenRenewer (c : client) (sched : list tick) : list event * status :=
  match sched with
  | [] => ([], Waiting)
  | t :: rest =>
      match iteration c t with
      | (tr, Done true) =>
          let '(tr', st) := startTokenRenewer c rest in (tr ++ tr', st)
      | (tr, Done false) => (tr, Returned)
      | (tr, Panicked p) => (tr, Crashed p)
      end
  end.

(** Lines 186 to 188: every warning of the response goes to the logger. *)
Fixpoint logWarnings (warnings : list string) : M unit :=
  match warnings with
  | [] => ret tt
  | w :: rest => emit (Log logger Warning w []) ;;; logWarnings rest
  end.

(** Lines 164 to 166: an empty key stands for the default one. *)
Definition requestedKey (key : string) : string :=
  if String.eqb key "" then defaultSecretKey else key.

Definition ReadSecret (c : client) (path key : string) : M (string * option error) :=
  let data := "" in
  let key := requestedKey key in
  emit (Call (Read path)) ;;;
  let '(secret, err) := logicalRead (logical c) path in
  match err with
  | Some e =>
      emit (Metric (updateVaultSecretReadErrorsCountMetric path key UnknownErrorType)) ;;;
      ret (data, Some (ApiError e))
  | None =>
      match secret with
      | Some secret =>
          let secretData := getData (c_engine c) secret in
          let warnings := Warnings secret in
          match secretData with
          | Some _ =>
              if notNil (index secretData key) then
                match index secretData key with
                | VString s => ret (s, None)
                | v => throw (InterfaceConversion "string" v)
                end
              else
                emit (Metric (updateVaultSecretReadErrorsCountMetric path key BackendSecretNotFoundErrorType)) ;;;
                ret (data, Some (BackendSecretNotFoundError BackendSecretNotFoundErrorType path key))
          | None =>
              logWarnings warnings ;;;
              emit (Metric (updateVaultSecretReadErrorsCountMetric path key BackendSecretNotFoundErrorType)) ;;;
              ret (data, Some (BackendSecretNotFoundError BackendSecretNotFoundErrorType path key))
          end
      | None =>
          emit (Metric (updateVaultSecretReadErrorsCountMetric path key BackendSecretNotFoundErrorType)) ;;;
          ret (data, Some (BackendSecretNotFoundError BackendSecretNotFoundErrorType path key))
      end
  end.

End Backend.

(** ** Engines and a store to run the examples on *)

(** Modelled from the spec: the two variants of the engine adapter, which
    live in a file of the package that is not in [src/]: the flat one gives
    the response's payload as it is, the versioned one the payload nested
    one level deeper, and no payload when there is none at that place. *)
Definition kvEngine1 : engine := {| getData := fun secret => Data secret |}.

Definition kvEngine2 : engine :=
  {| getData := fun secret =>
       match index (Data secret) "data" with
       | VMap m => Some m
       | _ => None
       end |}.

(** A stand-in for [TokenIsRenewable] to run the examples: the [renewable]
    field of the lookup response, read as a boolean.  It agrees with the
    library on a boolean field and on a missing one, which is all the
    examples use; it is not a model of the library's parsing of other
    values. *)
Definition renewableField (token : option Secret) : bool * option string :=
  match token with
  | None => (false, None)
  | Some tok =>
      match index (Data tok) "renewable" with
      | VBool b => (b, None)
      | VNil => (false, None)
      | _ => (false, Some "could not convert renewable value to a boolean")
      end
  end.

(** A store with two secrets, read through the flat engine. *)
Definition loginPayload : gmap string value := {[ "password" := VString "abc" ]}.

Definition appPayload : gmap string value :=
  {[ "user" := VString "svc"; "port" := VNumber "5432"; "note" := VNil ]}.

Definition loginSecret : Secret := {| Data := Some loginPayload; Warnings := [] |}.
Definition appSecret : Secret := {| Data := Some appPayload; Warnings := [] |}.

Definition demoLogical : Logical :=
  {| logicalRead := fun path =>
       if String.eqb path "secret/login" then (Some loginSecret, None)
       else if String.eqb path "secret/app" then (Some appSecret, None)
       else if String.eqb path "secret/down" then (None, Some "connection refused")
       else (None, None) |}.

Definition demoClient : client :=
  {| logical := demoLogical;
     maxTokenTTL := 600;
     tokenPollingPeriod := 15;
     renewTTLIncrement := 3600;
     c_engine := kvEngine1 |}.

(** A lookup response with the given [ttl] field and renewability. *)
Definition tokenWith (ttl : value) (renewable : bool) : Secret :=
  {| Data := Some {[ "ttl" := ttl; "renewable" := VBool renewable ]};
     Warnings := [] |}.

Definition tickOf (tok : Secret) (renew : option string) : tick :=
  {| woke := TimerFired; lookupSelf := (Some tok, None); renewSelf := renew |}.

(** Turns of the loop for the examples; the threshold of [demoClient] is 600. *)
Definition renewalSucceeds : tick := tickOf (tokenWith (VNumber "5") true) None.
Definition renewalFails : tick :=
  tickOf (tokenWith (VNumber "5") true) (Some "connection refused").
Definition notRenewable : tick := tickOf (tokenWith (VNumber "5") false) None.
Definition healthy : tick := tickOf (tokenWith (VNumber "700") true) None.
Definition lookupFails : tick :=
  {| woke := TimerFired; lookupSelf := (None, Some "connection refused");
     renewSelf := None |}.
Definition ttlMissing : Secret :=
  {| Data := Some {[ "renewable" := VBool true ]}; Warnings := [] |}.

(** ** Building the client *)

(** The fields of [Config] that [vaultClient] reads. *)
Record Config := {
  VaultURL : string;
  VaultToken : string;
  VaultEngine : string;
  VaultMaxTokenTTL : Z;
  VaultTokenPollingPeriod : Z;
  VaultRenewTTLIncrement : Z
}.

(** [api.HealthResponse], with the fields [vaultClient] reads. *)
Record HealthResponse := {
  ClusterName : string;
  Version : string;
  ClusterID : string
}.

(** What the outside world answers while the client is built: the error of
    [api.NewClient], the answer of [sys.Health] as Go's pair, and the
    [Logical] of the connection. *)
Record boot := {
  newClientErr : option string;
  health : option HealthResponse * option string;
  connLogical : Logical
}.

Inductive bootArg := BStr (s : string) | BErr (e : error).

(** What [vaultClient] does, in order. *)
Inductive bootEvent :=
| SetLogger (given : bool)            (* [logger = l] or [logger = log.New()] *)
| NewClient (address : string)
| SetToken (token : string)
| SysHealth
| Debugf (fmt : string) (args : list bootArg)
| Infof (fmt : string) (args : list bootArg)
| NewVaultMetrics (url version engine clusterID clusterName : string)
| StartTokenRenewer.                  (* the goroutine is started *)

Section VaultClient.

(** [newEngine], of a file of the package that is not in [src/]: the engine
    of that name, or an error. *)
Variable newEngine : string -> engine * option error.

(** [l] tells whether the logger passed in is not nil. *)
Definition vaultClient (l : bool) (w : boot) (cfg : Config)
  : list bootEvent * outcome (option client * option error) :=
  let tr0 := [SetLogger l; NewClient (VaultURL cfg)] in
  match newClientErr w with
  | Some e =>
      (tr0 ++ [Debugf "unable to build vault client: %v" [BErr (ApiError e)]],
       Done (None, Some (ApiError e)))
  | None =>
      let tr1 := tr0 ++ [SetToken (VaultToken cfg); SysHealth] in
      match health w with
      | (_, Some e) =>
          (tr1 ++ [Debugf "could not contact Vault at %s: %v "
                     [BStr (VaultURL cfg); BErr (ApiError e)]],
           Done (None, Some (ApiError e)))
      | (None, None) => (tr1, Panicked NilDereference)
      | (Some h, None) =>
          let tr2 :=
            tr1 ++ [Infof "successfully logged into Vault cluster %s"
                      [BStr (ClusterName h)]] in
          match newEngine (VaultEngine cfg) with
          | (_, Some e) =>
              (tr2 ++ [Debugf "unable to use engine %s: %v"
                         [BStr (VaultEngine cfg); BErr e]],
               Done (None, Some e))
          | (engine, None) =>
              (tr2 ++ [NewVaultMetrics (VaultURL cfg) (Version h) (VaultEngine cfg)
                         (ClusterID h) (ClusterName h);
                       StartTokenRenewer],
               Done (Some {| logical := connLogical w;
                             maxTokenTTL := VaultMaxTokenTTL cfg;
                             tokenPollingPeriod := VaultTokenPollingPeriod cfg;
                             renewTTLIncrement := VaultRenewTTLIncrement cfg;
                             c_engine := engine |},
                     None))
          end
      end
  end.

End VaultClient.

(** The engines by name, for the examples. *)
Definition demoNewEngine (name : string) : engine * option error :=
  if String.eqb name "kv1" then (kvEngine1, None)
  else if String.eqb name "kv2" then (kvEngine2, None)
  else (kvEngine1, Some (ApiError "engine not implemented")).

Definition demoConfig : Config :=
  {| VaultURL := "https://vault:8200";
     VaultToken := "s.token";
     VaultEngine := "kv1";
     VaultMaxTokenTTL := 600;
     VaultTokenPollingPeriod := 15;
     VaultRenewTTLIncrement := 3600 |}.

Definition demoBoot : boot :=
  {| newClientErr := None;
     health := (Some {| ClusterName := "vault-a"; Version := "1.4.0";
                        ClusterID := "c-1" |}, None);
     connLogical := demoLogical |}.

(** ** Reading a trace *)

Definition callOf (e : event) : option call :=
  match e with Call k => Some k | _ => None end.

Definition metricOf (e : event) : option metric :=
  match e with Metric m => Some m | _ => None end.

Definition isLog (e : event) : bool :=
  match e with Log _ _ _ _ => true | _ => false end.

(** The calls to the store of a trace, the metric updates, the log lines. *)
Definition calls (tr : list event) : list call := omap callOf tr.
Definition metrics (tr : list event) : list metric := omap metricOf tr.
Definition logs (tr : list event) : list event := List.filter isLog tr.

Definition isLookupSelf (k : call) : bool :=
  match k with LookupSelf => true | _ => false end.

Definition isRenewSelf (k : call) : bool :=
  match k with RenewSelf _ => true | _ => false end.

(** * Properties *)

Section Supervisor.

Variable TokenIsRenewable : option Secret -> bool * option string.
Variable c : client.

#[local] Abbreviation run := (startTokenRenewer TokenIsRenewable c).

(** ** The loop, one turn at a time *)

Lemma run_continue t rest tr :
  iteration TokenIsRenewable c t = (tr, Done true) ->
  run (t :: rest) = (tr ++ fst (run rest), snd (run rest)).
Proof.
  intros Ht. cbn [startTokenRenewer]. rewrite Ht.
  now destruct (run rest).
Qed.

Lemma run_return t rest tr :
  iteration TokenIsRenewable c t = (tr, Done false) ->
  run (t :: rest) = (tr, Returned).
Proof. intros Ht. cbn [startTokenRenewer]. now rewrite Ht. Qed.

Lemma run_crash t rest tr p :
  iteration TokenIsRenewable c t = (tr, Panicked p) ->
  run (t :: rest) = (tr, Crashed p).
Proof. intros Ht. cbn [startTokenRenewer]. now rewrite Ht. Qed.

(** A schedule on which the goroutine is still waiting can be extended, and
    the goroutine goes on from there. *)
Lemma run_app pre rest tr :
  run pre = (tr, Waiting) ->
  run (pre ++ rest) = (tr ++ fst (run rest), snd (run rest)).
Proof.
  revert tr. induction pre as [|t pre IH]; intros tr Hpre.
  - cbn in Hpre. injection Hpre as <-. cbn. now destruct (run rest).
  - cbn [startTokenRenewer] in Hpre. cbn [app startTokenRenewer].
    destruct (iteration TokenIsRenewable c t) as [tr0 [[|]|p]]; try discriminate.
    destruct (run pre) as [tr1 st1] eqn:E.
    injection Hpre as <- ->.
    rewrite (IH tr1 eq_refl). cbn [fst snd].
    now rewrite app_assoc.
Qed.

(** Once the goroutine has returned or panicked, the rest of the schedule
    is never looked at. *)
Lemma run_app_stopped pre rest tr st :
  run pre = (tr, st) -> st <> Waiting ->
  run (pre ++ rest) = (tr, st).
Proof.
  revert tr. induction pre as [|t pre IH]; intros tr Hpre Hst.
  - cbn in Hpre. congruence.
  - cbn [startTokenRenewer] in Hpre. cbn [app startTokenRenewer].
    destruct (iteration TokenIsRenewable c t) as [tr0 [[|]|p]]; try assumption.
    destruct (run pre) as [tr1 st1] eqn:E.
    injection Hpre as <- ->.
    now rewrite (IH tr1 eq_refl Hst).
Qed.

(** ** What one turn does, case by case *)

Lemma iteration_lookup_failed t secret e :
  woke t = TimerFired ->
  lookupSelf t = (secret, Some e) ->
  iteration TokenIsRenewable c t =
    ([Call LookupSelf;
      Log logger Error "error checking token with lookup self api: %v" [AErr (ApiError e)];
      Metric (updateVaultTokenLookupErrorsCountMetric UnknownErrorType);
      Log logger Error "failed to fetch token: %v" [AErr (ApiError e)]],
     Done false).
Proof.
  intros Hw Hl. unfold iteration, getToken. now rewrite Hw, Hl.
Qed.

Lemma iteration_healthy t tr1 token tr2 ttl :
  woke t = TimerFired ->
  getToken c t = (tr1, Done (token, None)) ->
  getTokenTTL c token = (tr2, Done (ttl, None)) ->
  maxTokenTTL c <= ttl ->
  iteration TokenIsRenewable c t =
    (tr1 ++ tr2 ++ [Metric (updateVaultTokenExpiredMetric vaultTokenNotExpired)],
     Done false).
Proof.
  intros Hw Hg Ht Hle. unfold iteration. rewrite Hw, Hg. cbn [bind].
  rewrite Ht. cbn [bind]. unfold shouldRenewToken.
  destruct (ttl <? maxTokenTTL c) eqn:E; [apply Z.ltb_lt in E; lia|].
  cbn. now rewrite ?app_nil_r.
Qed.

Lemma iteration_renewal_failed t tr1 token tr2 ttl tr3 e :
  woke t = TimerFired ->
  getToken c t = (tr1, Done (token, None)) ->
  getTokenTTL c token = (tr2, Done (ttl, None)) ->
  ttl < maxTokenTTL c ->
  renewToken TokenIsRenewable c t token = (tr3, Done (Some e)) ->
  iteration TokenIsRenewable c t =
    (tr1 ++ tr2 ++
     [Metric (updateVaultTokenExpiredMetric vaultTokenExpired);
      Log logger Warning "token is really close to expire, current ttl: %d" [AInt ttl]] ++
     tr3 ++ [Log logger Error "could not renew token: %v" [AErr e]],
     Done true).
Proof.
  intros Hw Hg Ht Hlt Hr. unfold iteration. rewrite Hw, Hg. cbn [bind].
  rewrite Ht. cbn [bind]. unfold shouldRenewToken.
  destruct (ttl <? maxTokenTTL c) eqn:E; [|apply Z.ltb_ge in E; lia].
  cbn. rewrite Hr. cbn. now rewrite ?app_nil_r.
Qed.

Lemma iteration_ttl_undecodable t tr1 token tr2 ttl e :
  woke t = TimerFired ->
  getToken c t = (tr1, Done (token, None)) ->
  getTokenTTL c token = (tr2, Done (ttl, Some e)) ->
  iteration TokenIsRenewable c t =
    (tr1 ++ tr2 ++ [Log logger Error "failed to read token TTL: %v" [AErr e]],
     Done false).
Proof.
  intros Hw Hg Ht. unfold iteration. rewrite Hw, Hg. cbn [bind].
  rewrite Ht. cbn. now rewrite ?app_nil_r.
Qed.

(** ** The claims about the loop *)

(** C1, as amended.  When a renewal attempt fails ([renewToken] returns an
    error) on a turn of the loop, the loop logs the failure and goes round
    again: the goroutine goes on as it does on the remaining schedule. *)
Theorem failed_renewal_keeps_polling pre tr t rest tr1 token tr2 ttl tr3 e :
  startTokenRenewer TokenIsRenewable c pre = (tr, Waiting) ->
  woke t = TimerFired ->
  getToken c t = (tr1, Done (token, None)) ->
  getTokenTTL c token = (tr2, Done (ttl, None)) ->
  ttl < maxTokenTTL c ->
  renewToken TokenIsRenewable c t token = (tr3, Done (Some e)) ->
  startTokenRenewer TokenIsRenewable c (pre ++ t :: rest) =
    (tr ++
     (tr1 ++ tr2 ++
      [Metric (updateVaultTokenExpiredMetric vaultTokenExpired);
       Log logger Warning "token is really close to expire, current ttl: %d" [AInt ttl]] ++
      tr3 ++ [Log logger Error "could not renew token: %v" [AErr e]]) ++
     fst (startTokenRenewer TokenIsRenewable c rest),
     snd (startTokenRenewer TokenIsRenewable c rest)).
Proof.
  intros Hpre Hw Hg Ht Hlt Hr.
  rewrite (run_app _ _ _ Hpre).
  rewrite (run_continue _ rest _
             (iteration_renewal_failed _ _ _ _ _ _ _ Hw Hg Ht Hlt Hr)).
  cbn [fst snd]. now rewrite <- !app_assoc.
Qed.

(** C2.  On a turn where the looked-up TTL is at or above the threshold, the
    goroutine returns right after that turn: the trace ends with the events
    of the lookup and of the TTL check, whatever the rest of the schedule. *)
Theorem healthy_ttl_ends_loop pre tr t rest tr1 token tr2 ttl :
  startTokenRenewer TokenIsRenewable c pre = (tr, Waiting) ->
  woke t = TimerFired ->
  getToken c t = (tr1, Done (token, None)) ->
  getTokenTTL c token = (tr2, Done (ttl, None)) ->
  maxTokenTTL c <= ttl ->
  snd (shouldRenewToken c ttl) = Done false /\
  startTokenRenewer TokenIsRenewable c (pre ++ t :: rest) =
    (tr ++ tr1 ++ tr2 ++ [Metric (updateVaultTokenExpiredMetric vaultTokenNotExpired)],
     Returned).
Proof.
  intros Hpre Hw Hg Ht Hle. split.
  - unfold shouldRenewToken.
    destruct (ttl <? maxTokenTTL c) eqn:E; [apply Z.ltb_lt in E; lia|reflexivity].
  - rewrite (run_app _ _ _ Hpre).
    now rewrite (run_return _ rest _ (iteration_healthy _ _ _ _ _ Hw Hg Ht Hle)).
Qed.

(** C9.  On a turn where the token lookup fails, the goroutine logs the
    failure and returns: the trace ends with the lookup call and its log
    lines, with no TTL metric, no renewability check and no renewal call,
    whatever the rest of the schedule. *)
Theorem lookup_failure_ends_loop pre tr t rest secret e :
  startTokenRenewer TokenIsRenewable c pre = (tr, Waiting) ->
  woke t = TimerFired ->
  lookupSelf t = (secret, Some e) ->
  startTokenRenewer TokenIsRenewable c (pre ++ t :: rest) =
    (tr ++
     [Call LookupSelf;
      Log logger Error "error checking token with lookup self api: %v" [AErr (ApiError e)];
      Metric (updateVaultTokenLookupErrorsCountMetric UnknownErrorType);
      Log logger Error "failed to fetch token: %v" [AErr (ApiError e)]],
     Returned).
Proof.
  intros Hpre Hw Hl.
  rewrite (run_app _ _ _ Hpre).
  now rewrite (run_return _ rest _ (iteration_lookup_failed _ _ _ Hw Hl)).
Qed.

(** C6.  For a token that is not renewable, [renewToken] returns the
    not-renewable error after one metric update, and its trace holds no
    call to the store. *)
Theorem renewToken_not_renewable t token :
  TokenIsRenewable token = (false, None) ->
  renewToken TokenIsRenewable c t token =
    ([Metric (updateVaultTokenRenewErrorsCountMetric VaultTokenNotRenewableErrorType)],
     Done (Some (VaultTokenNotRenewableError VaultTokenNotRenewableErrorType))) /\
  Forall (fun ev => forall k, ev <> Call k)
         (fst (renewToken TokenIsRenewable c t token)).
Proof.
  intros H. unfold renewToken. rewrite H. cbn. split; [reflexivity|].
  repeat constructor. discriminate.
Qed.

(** Where [getTokenTTL] does return.  When the [ttl] field of a token
    response is a JSON number, either the number parses as a 64-bit integer
    and it is the TTL, or it does not, the result is -1 with the parse
    error, and a turn of the loop on that token returns with no renewal
    attempted. *)
Theorem getTokenTTL_json_number tok n :
  index (Data tok) "ttl" = VNumber n ->
  (exists ttl,
      Int64 n = (ttl, None) /\
      getTokenTTL c (Some tok) =
        ([Metric (updateVaultTokenTTLMetric ttl)], Done (ttl, None)))
  \/
  (exists x e,
      Int64 n = (x, Some e) /\
      getTokenTTL c (Some tok) =
        ([Log logger Error "couldn't decode ttl from token: %v" [AErr e]],
         Done (-1, Some e)) /\
      forall t rest,
        woke t = TimerFired ->
        lookupSelf t = (Some tok, None) ->
        startTokenRenewer TokenIsRenewable c (t :: rest) =
          ([Call LookupSelf;
            Log logger Error "couldn't decode ttl from token: %v" [AErr e];
            Log logger Error "failed to read token TTL: %v" [AErr e]],
           Returned)).
Proof.
  intros Hn.
  assert (Hg : forall x oe,
             Int64 n = (x, oe) ->
             getTokenTTL c (Some tok) =
               match oe with
               | Some e =>
                   ([Log logger Error "couldn't decode ttl from token: %v" [AErr e]],
                    Done (-1, Some e))
               | None => ([Metric (updateVaultTokenTTLMetric x)], Done (x, None))
               end).
  { intros x oe Hx. unfold getTokenTTL. rewrite Hn, Hx. now destruct oe. }
  destruct (Int64 n) as [x [e|]] eqn:Hx.
  - right. exists x, e. split; [reflexivity|]. split; [exact (Hg _ _ eq_refl)|].
    intros t rest Hw Hl. apply run_return.
    assert (Hk : getToken c t = ([Call LookupSelf], Done (Some tok, None))).
    { unfold getToken. now rewrite Hl. }
    exact (iteration_ttl_undecodable t _ _ _ _ _ Hw Hk (Hg _ _ eq_refl)).
  - left. exists x. split; [reflexivity|]. exact (Hg _ _ eq_refl).
Qed.

End Supervisor.

(** ** The renewal decision *)

(** C5.  [shouldRenewToken] answers [true] exactly below the threshold and
    [false] exactly at or above it. *)
Theorem shouldRenewToken_iff (c : client) (ttl : Z) :
  (snd (shouldRenewToken c ttl) = Done true <-> ttl < maxTokenTTL c) /\
  (snd (shouldRenewToken c ttl) = Done false <-> maxTokenTTL c <= ttl).
Proof.
  unfold shouldRenewToken.
  destruct (ttl <? maxTokenTTL c) eqn:E; cbn.
  - apply Z.ltb_lt in E. split; split; intros H; try reflexivity; try assumption;
      try discriminate; lia.
  - apply Z.ltb_ge in E. split; split; intros H; try reflexivity; try assumption;
      try discriminate; lia.
Qed.

(** ** The read path *)

Section Reader.

Variable c : client.
Variables path key : string.

#[local] Abbreviation notFound :=
  (BackendSecretNotFoundError BackendSecretNotFoundErrorType path (requestedKey key)).

(** [ReadSecret] by cases on what the store and the engine answer. *)
Lemma ReadSecret_store_error resp e :
  logicalRead (logical c) path = (resp, Some e) ->
  ReadSecret c path key =
    ([Call (Read path);
      Metric (updateVaultSecretReadErrorsCountMetric path (requestedKey key) UnknownErrorType)],
     Done ("", Some (ApiError e))).
Proof. intros H. unfold ReadSecret. now rewrite H. Qed.

Lemma ReadSecret_nil_response :
  logicalRead (logical c) path = (None, None) ->
  ReadSecret c path key =
    ([Call (Read path);
      Metric (updateVaultSecretReadErrorsCountMetric path (requestedKey key)
                BackendSecretNotFoundErrorType)],
     Done ("", Some notFound)).
Proof. intros H. unfold ReadSecret. now rewrite H. Qed.

Lemma logWarnings_done ws :
  logWarnings ws = (map (fun w => Log logger Warning w []) ws, Done tt).
Proof.
  induction ws as [|w ws IH]; [reflexivity|].
  cbn [logWarnings map]. now rewrite IH.
Qed.

Lemma ReadSecret_no_payload secret :
  logicalRead (logical c) path = (Some secret, None) ->
  getData (c_engine c) secret = None ->
  ReadSecret c path key =
    (Call (Read path) ::
     map (fun w => Log logger Warning w []) (Warnings secret) ++
     [Metric (updateVaultSecretReadErrorsCountMetric path (requestedKey key)
                BackendSecretNotFoundErrorType)],
     Done ("", Some notFound)).
Proof.
  intros H Hd. unfold ReadSecret. rewrite H. cbn [bind emit]. rewrite Hd.
  now rewrite logWarnings_done.
Qed.

Lemma ReadSecret_payload secret payload :
  logicalRead (logical c) path = (Some secret, None) ->
  getData (c_engine c) secret = Some payload ->
  ReadSecret c path key =
    match default VNil (payload !! requestedKey key) with
    | VNil =>
        ([Call (Read path);
          Metric (updateVaultSecretReadErrorsCountMetric path (requestedKey key)
                    BackendSecretNotFoundErrorType)],
         Done ("", Some notFound))
    | VString s => ([Call (Read path)], Done (s, None))
    | v => ([Call (Read path)], Panicked (InterfaceConversion "string" v))
    end.
Proof.
  intros H Hd. unfold ReadSecret. rewrite H. cbn [bind emit]. rewrite Hd.
  cbn [index]. now destruct (default VNil (payload !! requestedKey key)).
Qed.

(** C7.  An empty key reads the default field: the whole outcome of
    [ReadSecret], trace included, is the one of the default key. *)
Theorem ReadSecret_empty_key :
  ReadSecret c path "" = ReadSecret c path defaultSecretKey.
Proof. reflexivity. Qed.

(** C8.  When the read succeeds and the payload the engine extracts maps the
    requested key to a string, [ReadSecret] returns that string and a nil
    error, after the one call to the store. *)
Theorem ReadSecret_found secret payload s :
  logicalRead (logical c) path = (Some secret, None) ->
  getData (c_engine c) secret = Some payload ->
  payload !! requestedKey key = Some (VString s) ->
  ReadSecret c path key = ([Call (Read path)], Done (s, None)).
Proof.
  intros H Hd Hk. rewrite (ReadSecret_payload _ _ H Hd). now rewrite Hk.
Qed.

(** C4, as amended.  [ReadSecret] returns the empty string with the
    secret-not-found error exactly when the store call succeeds and the
    response is nil, or the engine extracts no payload from it, or the
    payload has no value other than nil at the requested key (the key is
    absent or mapped to nil); the error value is the same in the three
    cases. *)
Theorem ReadSecret_not_found_iff :
  snd (ReadSecret c path key) = Done ("", Some notFound) <->
  exists resp,
    logicalRead (logical c) path = (resp, None) /\
    (resp = None
     \/ (exists secret, resp = Some secret /\ getData (c_engine c) secret = None)
     \/ (exists secret payload,
           resp = Some secret /\
           getData (c_engine c) secret = Some payload /\
           (payload !! requestedKey key = None \/
            payload !! requestedKey key = Some VNil))).
Proof.
  split.
  - intros Hr.
    destruct (logicalRead (logical c) path) as [resp [e|]] eqn:H.
    { rewrite (ReadSecret_store_error _ _ H) in Hr. discriminate. }
    exists resp. split; [reflexivity|].
    destruct resp as [secret|]; [|now left]. right.
    destruct (getData (c_engine c) secret) as [payload|] eqn:Hd.
    + right. exists secret, payload. split; [reflexivity|]. split; [exact Hd|].
      rewrite (ReadSecret_payload _ _ H Hd) in Hr.
      destruct (payload !! requestedKey key) as [v|]; [|now left]. right.
      destruct v; cbn in Hr; try discriminate. reflexivity.
    + left. now exists secret.
  - intros (resp & H & [-> | [(secret & -> & Hd) | (secret & payload & -> & Hd & Hk)]]).
    + now rewrite (ReadSecret_nil_response H).
    + now rewrite (ReadSecret_no_payload _ H Hd).
    + rewrite (ReadSecret_payload _ _ H Hd).
      now destruct Hk as [-> | ->].
Qed.

(** Where [ReadSecret] does return.  For a non-nil response whose extracted
    payload contains the requested key, [ReadSecret] returns without
    panicking exactly when the value at that key is a string or nil. *)
Theorem ReadSecret_returns_iff secret payload v :
  logicalRead (logical c) path = (Some secret, None) ->
  getData (c_engine c) secret = Some payload ->
  payload !! requestedKey key = Some v ->
  (exists tr r, ReadSecret c path key = (tr, Done r)) <->
  (v = VNil \/ exists s, v = VString s).
Proof.
  intros H Hd Hk. rewrite (ReadSecret_payload _ _ H Hd), Hk. cbn [default].
  split.
  - intros (tr & r & Hr). destruct v; try discriminate; [now left|right; now eexists].
  - intros [-> | [s ->]]; now do 2 eexists.
Qed.

End Reader.

(** * The claims on a store and a schedule *)

(** ** Where the loop and the reader part from what is claimed of them *)

(** C1, counterexample.  The first renewal fails, and the goroutine still
    looks the token up again on the next turn, renews it, and waits. *)
Lemma failed_renewal_does_not_stop :
  snd (renewToken renewableField demoClient renewalFails
         (Some (tokenWith (VNumber "5") true)))
    = Done (Some (ApiError "connection refused")) /\
  startTokenRenewer renewableField demoClient [renewalFails; renewalSucceeds] =
    ([Call LookupSelf;
      Metric (updateVaultTokenTTLMetric 5);
      Metric (updateVaultTokenExpiredMetric vaultTokenExpired);
      Log logger Warning "token is really close to expire, current ttl: %d" [AInt 5];
      Call (RenewSelf 3600);
      Log Logrus Error "failed to renew token: %v" [AErr (ApiError "connection refused")];
      Metric (updateVaultTokenRenewErrorsCountMetric UnknownErrorType);
      Log logger Error "could not renew token: %v" [AErr (ApiError "connection refused")];
      Call LookupSelf;
      Metric (updateVaultTokenTTLMetric 5);
      Metric (updateVaultTokenExpiredMetric vaultTokenExpired);
      Log logger Warning "token is really close to expire, current ttl: %d" [AInt 5];
      Call (RenewSelf 3600);
      Log logger Info "token renewed successfully!" []],
     Waiting).
Proof. split; vm_compute; reflexivity. Qed.

(** C3, at the failing inputs.  A response with no [ttl] field, or with one
    that is not a JSON number, makes [getTokenTTL] panic at the unchecked
    type assertion of line 90 instead of returning an error, and the
    goroutine panics with it. *)
Lemma getTokenTTL_panics_off_json_number :
  getTokenTTL demoClient (Some ttlMissing)
    = ([], Panicked (InterfaceConversion "json.Number" VNil)) /\
  getTokenTTL demoClient (Some (tokenWith (VString "3600") true))
    = ([], Panicked (InterfaceConversion "json.Number" (VString "3600"))) /\
  startTokenRenewer renewableField demoClient [tickOf ttlMissing None; healthy]
    = ([Call LookupSelf], Crashed (InterfaceConversion "json.Number" VNil)).
Proof. repeat split; vm_compute; reflexivity. Qed.

(** C4, counterexample.  The response is not nil, the engine extracts a
    payload, the payload has the requested key, and [ReadSecret] still
    answers secret-not-found: the key is mapped to nil. *)
Lemma ReadSecret_nil_value_not_found :
  logicalRead (logical demoClient) "secret/app" = (Some appSecret, None) /\
  getData (c_engine demoClient) appSecret = Some appPayload /\
  appPayload !! "note" = Some VNil /\
  snd (ReadSecret demoClient "secret/app" "note")
    = Done ("", Some (BackendSecretNotFoundError BackendSecretNotFoundErrorType
                        "secret/app" "note")).
Proof. repeat split; vm_compute; reflexivity. Qed.

(** C10, at the failing input.  The response is not nil, the payload has the
    requested key, its value is a number, and [ReadSecret] panics at the
    unchecked type assertion of line 180 instead of returning. *)
Lemma ReadSecret_non_string_panics :
  logicalRead (logical demoClient) "secret/app" = (Some appSecret, None) /\
  getData (c_engine demoClient) appSecret = Some appPayload /\
  appPayload !! "port" = Some (VNumber "5432") /\
  ReadSecret demoClient "secret/app" "port"
    = ([Call (Read "secret/app")],
       Panicked (InterfaceConversion "string" (VNumber "5432"))).
Proof. repeat split; vm_compute; reflexivity. Qed.

(** ** The theorems at work *)

Lemma failed_renewal_keeps_polling_witness :
  startTokenRenewer renewableField demoClient
    ([renewalSucceeds] ++ renewalFails :: [healthy]) =
    (fst (startTokenRenewer renewableField demoClient [renewalSucceeds]) ++
     ([Call LookupSelf] ++ [Metric (updateVaultTokenTTLMetric 5)] ++
      [Metric (updateVaultTokenExpiredMetric vaultTokenExpired);
       Log logger Warning "token is really close to expire, current ttl: %d" [AInt 5]] ++
      [Call (RenewSelf 3600);
       Log Logrus Error "failed to renew token: %v" [AErr (ApiError "connection refused")];
       Metric (updateVaultTokenRenewErrorsCountMetric UnknownErrorType)] ++
      [Log logger Error "could not renew token: %v" [AErr (ApiError "connection refused")]]) ++
     fst (startTokenRenewer renewableField demoClient [healthy]),
     snd (startTokenRenewer renewableField demoClient [healthy])).
Proof.
  apply failed_renewal_keeps_polling
    with (token := Some (tokenWith (VNumber "5") true));
    reflexivity.
Defined.

Lemma healthy_ttl_ends_loop_witness :
  snd (shouldRenewToken demoClient 700) = Done false /\
  startTokenRenewer renewableField demoClient
    ([renewalSucceeds] ++ healthy :: [renewalSucceeds]) =
    (fst (startTokenRenewer renewableField demoClient [renewalSucceeds]) ++
     [Call LookupSelf] ++ [Metric (updateVaultTokenTTLMetric 700)] ++
     [Metric (updateVaultTokenExpiredMetric vaultTokenNotExpired)],
     Returned).
Proof.
  apply healthy_ttl_ends_loop
    with (token := Some (tokenWith (VNumber "700") true));
    try reflexivity.
  cbn. lia.
Defined.

Lemma lookup_failure_ends_loop_witness :
  startTokenRenewer renewableField demoClient
    ([renewalSucceeds] ++ lookupFails :: [renewalSucceeds]) =
    (fst (startTokenRenewer renewableField demoClient [renewalSucceeds]) ++
     [Call LookupSelf;
      Log logger Error "error checking token with lookup self api: %v"
        [AErr (ApiError "connection refused")];
      Metric (updateVaultTokenLookupErrorsCountMetric UnknownErrorType);
      Log logger Error "failed to fetch token: %v" [AErr (ApiError "connection refused")]],
     Returned).
Proof.
  apply lookup_failure_ends_loop with (secret := None); reflexivity.
Defined.

Lemma renewToken_not_renewable_witness :
  renewToken renewableField demoClient notRenewable
    (Some (tokenWith (VNumber "5") false)) =
    ([Metric (updateVaultTokenRenewErrorsCountMetric VaultTokenNotRenewableErrorType)],
     Done (Some (VaultTokenNotRenewableError VaultTokenNotRenewableErrorType))) /\
  Forall (fun ev => forall k, ev <> Call k)
         (fst (renewToken renewableField demoClient notRenewable
                 (Some (tokenWith (VNumber "5") false)))).
Proof. apply renewToken_not_renewable. reflexivity. Defined.

Lemma getTokenTTL_json_number_witness :
  getTokenTTL demoClient (Some (tokenWith (VNumber "1.5") true)) =
    ([Log logger Error "couldn't decode ttl from token: %v"
        [AErr (NumError "1.5" ErrSyntax)]],
     Done (-1, Some (NumError "1.5" ErrSyntax))).
Proof.
  destruct (getTokenTTL_json_number renewableField demoClient
              (tokenWith (VNumber "1.5") true) "1.5" eq_refl)
    as [(ttl & Hp & _) | (x & e & Hp & Hg & _)].
  - vm_compute in Hp. discriminate Hp.
  - vm_compute in Hp. injection Hp as <- <-. exact Hg.
Defined.

Lemma ReadSecret_found_witness :
  ReadSecret demoClient "secret/login" "password"
    = ([Call (Read "secret/login")], Done ("abc", None)).
Proof.
  apply ReadSecret_found with (secret := loginSecret) (payload := loginPayload);
    reflexivity.
Defined.

Lemma ReadSecret_returns_iff_witness :
  exists tr r, ReadSecret demoClient "secret/login" "password" = (tr, Done r).
Proof.
  apply (ReadSecret_returns_iff demoClient "secret/login" "password"
           loginSecret loginPayload (VString "abc") eq_refl eq_refl eq_refl).
  right. now exists "abc".
Defined.

(** * Further properties of the loop *)

Section Loop.

Variable TokenIsRenewable : option Secret -> bool * option string.
Variable c : client.

#[local] Abbreviation run := (startTokenRenewer TokenIsRenewable c).
#[local] Abbreviation turn := (iteration TokenIsRenewable c).

(** [renewToken] by cases on the renewability of the token and on the answer
    of the store. *)
Lemma renewToken_cases t token :
  renewToken TokenIsRenewable c t token =
    match TokenIsRenewable token with
    | (_, Some e) =>
        ([Log logger Error "could not check token renewability: %v" [AErr (ApiError e)];
          Metric (updateVaultTokenRenewErrorsCountMetric UnknownErrorType)],
         Done (Some (ApiError e)))
    | (false, None) =>
        ([Metric (updateVaultTokenRenewErrorsCountMetric VaultTokenNotRenewableErrorType)],
         Done (Some (VaultTokenNotRenewableError VaultTokenNotRenewableErrorType)))
    | (true, None) =>
        match renewSelf t with
        | Some e =>
            ([Call (RenewSelf (renewTTLIncrement c));
              Log Logrus Error "failed to renew token: %v" [AErr (ApiError e)];
              Metric (updateVaultTokenRenewErrorsCountMetric UnknownErrorType)],
             Done (Some (ApiError e)))
        | None => ([Call (RenewSelf (renewTTLIncrement c))], Done None)
        end
    end.
Proof.
  unfold renewToken.
  destruct (TokenIsRenewable token) as [[|] [e|]]; try reflexivity.
  cbn. now destruct (renewSelf t).
Qed.

(** One turn of the loop, in terms of [renewToken] alone. *)
Lemma iteration_cases t :
  turn t =
    match woke t with
    | CtxDone =>
        ([Log logger Info "gracefully shutting down token renewal go routine" []],
         Done false)
    | TimerFired =>
        match lookupSelf t with
        | (_, Some e) =>
            ([Call LookupSelf;
              Log logger Error "error checking token with lookup self api: %v"
                [AErr (ApiError e)];
              Metric (updateVaultTokenLookupErrorsCountMetric UnknownErrorType);
              Log logger Error "failed to fetch token: %v" [AErr (ApiError e)]],
             Done false)
        | (None, None) => ([Call LookupSelf], Panicked NilDereference)
        | (Some tok, None) =>
            match index (Data tok) "ttl" with
            | VNumber n =>
                match Int64 n with
                | (_, Some e) =>
                    ([Call LookupSelf;
                      Log logger Error "couldn't decode ttl from token: %v" [AErr e];
                      Log logger Error "failed to read token TTL: %v" [AErr e]],
                     Done false)
                | (ttl, None) =>
                    if ttl <? maxTokenTTL c then
                      let r := renewToken TokenIsRenewable c t (Some tok) in
                      ([Call LookupSelf;
                        Metric (updateVaultTokenTTLMetric ttl);
                        Metric (updateVaultTokenExpiredMetric vaultTokenExpired);
                        Log logger Warning
                          "token is really close to expire, current ttl: %d" [AInt ttl]]
                       ++ fst r ++
                       [match snd r with
                        | Done (Some e) =>
                            Log logger Error "could not renew token: %v" [AErr e]
                        | _ => Log logger Info "token renewed successfully!" []
                        end],
                       Done true)
                    else
                      ([Call LookupSelf;
                        Metric (updateVaultTokenTTLMetric ttl);
                        Metric (updateVaultTokenExpiredMetric vaultTokenNotExpired)],
                       Done false)
                end
            | v => ([Call LookupSelf], Panicked (InterfaceConversion "json.Number" v))
            end
        end
    end.
Proof.
  unfold iteration, getToken.
  destruct (woke t); [|reflexivity].
  destruct (lookupSelf t) as [[tok|] [e|]]; try reflexivity.
  cbn [bind emit ret app]. unfold getTokenTTL.
  destruct (index (Data tok) "ttl"); try reflexivity.
  destruct (Int64 n) as [ttl [e|]]; [reflexivity|].
  cbn [bind emit ret app]. unfold shouldRenewToken.
  destruct (ttl <? maxTokenTTL c); [|reflexivity].
  cbn [bind emit ret app]. rewrite renewToken_cases.
  destruct (TokenIsRenewable (Some tok)) as [[|] [e|]]; try reflexivity.
  now destruct (renewSelf t).
Qed.

(** The store calls of one turn: none, a lookup, or a lookup and then a
    renewal with the configured increment. *)
Lemma iteration_calls t :
  calls (fst (turn t)) = [] \/
  calls (fst (turn t)) = [LookupSelf] \/
  calls (fst (turn t)) = [LookupSelf; RenewSelf (renewTTLIncrement c)].
Proof.
  rewrite iteration_cases.
  destruct (woke t); [|now left].
  destruct (lookupSelf t) as [[tok|] [e|]]; try (right; left; reflexivity).
  destruct (index (Data tok) "ttl"); try (right; left; reflexivity).
  destruct (Int64 n) as [ttl [e|]]; [right; left; reflexivity|].
  destruct (ttl <? maxTokenTTL c); [|right; left; reflexivity].
  rewrite renewToken_cases.
  destruct (TokenIsRenewable (Some tok)) as [[|] [e|]];
    try (right; left; reflexivity).
  destruct (renewSelf t); right; right; reflexivity.
Qed.

Lemma calls_app tr1 tr2 : calls (tr1 ++ tr2) = calls tr1 ++ calls tr2.
Proof. apply omap_app. Qed.

Lemma run_cons t rest :
  run (t :: rest) =
    match turn t with
    | (tr, Done true) => (tr ++ fst (run rest), snd (run rest))
    | (tr, Done false) => (tr, Returned)
    | (tr, Panicked p) => (tr, Crashed p)
    end.
Proof.
  cbn [startTokenRenewer].
  destruct (turn t) as [tr [[|]|p]]; try reflexivity.
  now destruct (run rest).
Qed.

(** When the context is cancelled the goroutine logs the shutdown and
    returns, with no call to the store. *)
Theorem cancellation_ends_loop pre tr t rest :
  startTokenRenewer TokenIsRenewable c pre = (tr, Waiting) ->
  woke t = CtxDone ->
  startTokenRenewer TokenIsRenewable c (pre ++ t :: rest) =
    (tr ++ [Log logger Info "gracefully shutting down token renewal go routine" []],
     Returned).
Proof.
  intros Hpre Hw. rewrite (run_app _ _ _ _ _ Hpre), run_cons, iteration_cases, Hw.
  reflexivity.
Qed.

(** The loop goes round again exactly after a renewal attempt: the timer
    fired, the lookup succeeded, the TTL is a number that parses, and it is
    below the threshold.  The outcome of the renewal plays no part. *)
Theorem loop_goes_on_iff t :
  snd (iteration TokenIsRenewable c t) = Done true <->
  exists tok n ttl,
    woke t = TimerFired /\
    lookupSelf t = (Some tok, None) /\
    index (Data tok) "ttl" = VNumber n /\
    Int64 n = (ttl, None) /\
    ttl < maxTokenTTL c.
Proof.
  rewrite iteration_cases. split.
  - destruct (woke t); [|discriminate].
    destruct (lookupSelf t) as [[tok|] [e|]]; try discriminate.
    destruct (index (Data tok) "ttl") eqn:Hi; try discriminate.
    destruct (Int64 n) as [ttl [e|]] eqn:Hn; [discriminate|].
    destruct (ttl <? maxTokenTTL c) eqn:E; [|discriminate].
    intros _. exists tok, n, ttl. apply Z.ltb_lt in E. auto.
  - intros (tok & n & ttl & -> & -> & -> & -> & Hlt).
    apply Z.ltb_lt in Hlt. now rewrite Hlt.
Qed.

Lemma run_waiting_turns sched :
  snd (startTokenRenewer TokenIsRenewable c sched) = Waiting <->
  Forall (fun t => snd (iteration TokenIsRenewable c t) = Done true) sched.
Proof.
  induction sched as [|t rest IH].
  - split; [constructor|reflexivity].
  - rewrite run_cons. split.
    + destruct (turn t) as [tr [[|]|p]] eqn:Ht; cbn [snd]; try discriminate.
      intros H. constructor; [now rewrite Ht|now apply IH].
    + intros H. inversion H as [|? ? H1 H2]; subst.
      destruct (turn t) as [tr [[|]|p]]; cbn [snd] in *; try discriminate.
      now apply IH.
Qed.

Lemma turn_goes_on t :
  snd (turn t) = Done true <->
  exists tok n ttl,
    woke t = TimerFired /\
    lookupSelf t = (Some tok, None) /\
    index (Data tok) "ttl" = VNumber n /\
    Int64 n = (ttl, None) /\
    ttl < maxTokenTTL c.
Proof.
  rewrite iteration_cases. split.
  - destruct (woke t); [|discriminate].
    destruct (lookupSelf t) as [[tok|] [e|]]; try discriminate.
    destruct (index (Data tok) "ttl") eqn:Hi; try discriminate.
    destruct (Int64 n) as [ttl [e|]] eqn:Hn; [discriminate|].
    destruct (ttl <? maxTokenTTL c) eqn:E; [|discriminate].
    intros _. exists tok, n, ttl. apply Z.ltb_lt in E. auto.
  - intros (tok & n & ttl & -> & -> & -> & -> & Hlt).
    apply Z.ltb_lt in Hlt. now rewrite Hlt.
Qed.

(** The goroutine is still waiting at the end of a schedule exactly when
    every turn of the schedule attempted a renewal: the timer fired, the
    lookup gave a token with no error, its TTL is a number that parses,
    and it is below the threshold. *)
Theorem still_waiting_iff sched :
  snd (startTokenRenewer TokenIsRenewable c sched) = Waiting <->
  Forall (fun t =>
            exists tok n ttl,
              woke t = TimerFired /\
              lookupSelf t = (Some tok, None) /\
              index (Data tok) "ttl" = VNumber n /\
              Int64 n = (ttl, None) /\
              ttl < maxTokenTTL c) sched.
Proof.
  rewrite run_waiting_turns. split; intros H.
  - eapply Forall_impl; [exact H|]. intros t Ht. now apply turn_goes_on.
  - eapply Forall_impl; [exact H|]. intros t Ht. now apply turn_goes_on.
Qed.

(** The store calls of a run are a sequence of token lookups, at most one
    per turn, each followed by at most one renewal, always with the
    configured increment; the goroutine never reads a secret. *)
Theorem run_calls_pattern sched :
  exists renewed : list bool,
    calls (fst (startTokenRenewer TokenIsRenewable c sched)) =
      flat_map (fun b : bool =>
                  if b then [LookupSelf; RenewSelf (renewTTLIncrement c)]
                  else [LookupSelf]) renewed /\
    (length renewed <= length sched)%nat.
Proof.
  induction sched as [|t rest (l & IH & Hlen)].
  - exists []. split; [reflexivity|cbn; lia].
  - rewrite run_cons.
    destruct (iteration_calls t) as [H | [H | H]];
      destruct (turn t) as [tr [[|]|p]]; cbn [fst] in *;
      rewrite ?calls_app, ?H, ?IH.
    all: first
      [ exists l; split; [reflexivity|cbn; lia]
      | exists (false :: l); split; [reflexivity|cbn; lia]
      | exists (true :: l); split; [reflexivity|cbn; lia]
      | exists []; split; [reflexivity|cbn; lia]
      | exists [false]; split; [reflexivity|cbn; lia]
      | exists [true]; split; [reflexivity|cbn; lia] ].
Qed.


(** After a renewal that succeeds the loop goes round again, and the next
    turn follows. *)
Theorem successful_renewal_keeps_polling pre tr t rest tok n ttl :
  startTokenRenewer TokenIsRenewable c pre = (tr, Waiting) ->
  woke t = TimerFired ->
  lookupSelf t = (Some tok, None) ->
  index (Data tok) "ttl" = VNumber n ->
  Int64 n = (ttl, None) ->
  ttl < maxTokenTTL c ->
  TokenIsRenewable (Some tok) = (true, None) ->
  renewSelf t = None ->
  startTokenRenewer TokenIsRenewable c (pre ++ t :: rest) =
    (tr ++
     [Call LookupSelf;
      Metric (updateVaultTokenTTLMetric ttl);
      Metric (updateVaultTokenExpiredMetric vaultTokenExpired);
      Log logger Warning "token is really close to expire, current ttl: %d" [AInt ttl];
      Call (RenewSelf (renewTTLIncrement c));
      Log logger Info "token renewed successfully!" []] ++
     fst (startTokenRenewer TokenIsRenewable c rest),
     snd (startTokenRenewer TokenIsRenewable c rest)).
Proof.
  intros Hpre Hw Hl Hi Hn Hlt Hr Hs. apply Z.ltb_lt in Hlt.
  rewrite (run_app _ _ _ _ _ Hpre), run_cons, iteration_cases.
  rewrite Hw, Hl, Hi, Hn, Hlt, renewToken_cases, Hr, Hs. reflexivity.
Qed.

(** [renewToken] returns no error exactly when the token is renewable and
    the store accepts the renewal; it updates no metric exactly then, and
    when it returns an error it updates the renewal-errors metric, once. *)
Theorem renewToken_succeeds_iff t token :
  (snd (renewToken TokenIsRenewable c t token) = Done None <->
   TokenIsRenewable token = (true, None) /\ renewSelf t = None) /\
  (metrics (fst (renewToken TokenIsRenewable c t token)) = [] <->
   snd (renewToken TokenIsRenewable c t token) = Done None) /\
  (snd (renewToken TokenIsRenewable c t token) <> Done None ->
   exists ty,
     metrics (fst (renewToken TokenIsRenewable c t token)) =
       [updateVaultTokenRenewErrorsCountMetric ty]).
Proof.
  rewrite renewToken_cases.
  destruct (TokenIsRenewable token) as [[|] [e|]]; cbn;
    try (split; [split; [discriminate | intros [H _]; discriminate H]
                |split; [split; discriminate | intros _; eexists; reflexivity]]).
  destruct (renewSelf t); cbn.
  - split; [split; [discriminate | intros [_ H]; discriminate H]
           |split; [split; discriminate | intros _; eexists; reflexivity]].
  - split; [split; auto | split; [split; auto | intros H; now elim H]].
Qed.

(** [renewToken] calls the store exactly when the token is found renewable,
    once, and asks for the configured increment. *)
Theorem renewToken_call_iff t token :
  calls (fst (renewToken TokenIsRenewable c t token)) =
    (if decide (TokenIsRenewable token = (true, None))
     then [RenewSelf (renewTTLIncrement c)] else []).
Proof.
  rewrite renewToken_cases.
  destruct (TokenIsRenewable token) as [[|] [e|]]; cbn;
    try (destruct (decide _) as [H|H]; [discriminate H|reflexivity]).
  destruct (decide _) as [H|H]; [|congruence].
  now destruct (renewSelf t).
Qed.

End Loop.

(** * Further properties of the TTL of a token *)

Lemma digit_range a d : digit a = Some d -> 0 <= d <= 9.
Proof.
  unfold digit.
  destruct ((48 <=? Z.of_N (N_of_ascii a)) && (Z.of_N (N_of_ascii a) <=? 57)) eqn:E;
    [|discriminate].
  apply andb_true_iff in E as [H1 H2].
  apply Z.leb_le in H1, H2. intros [= <-]. lia.
Qed.

Lemma ParseUint_loop_nonneg s : forall n u,
  0 <= n -> ParseUint_loop s n = inl u -> 0 <= u.
Proof.
  induction s as [|a r IH]; intros n u Hn; cbn [ParseUint_loop].
  - intros [= <-]. exact Hn.
  - destruct (digit a) as [d|] eqn:Hd; [|discriminate].
    apply digit_range in Hd.
    destruct (maxUint64 <? n * 10 + d); [discriminate|].
    apply IH. lia.
Qed.

Lemma ParseUint_nonneg s u : ParseUint s = inl u -> 0 <= u.
Proof.
  destruct s; [discriminate|]. unfold ParseUint.
  apply ParseUint_loop_nonneg. lia.
Qed.

(** A successful [ParseInt] gives a 64-bit signed integer. *)
Lemma ParseInt_range s z :
  ParseInt s = (z, None) -> - 2 ^ 63 <= z < 2 ^ 63.
Proof.
  unfold ParseInt. destruct s as [|a r]; [discriminate|].
  assert (K : forall (neg : bool) s',
             match ParseUint s' with
             | inr ErrSyntax => (0, Some (NumError (String a r) ErrSyntax))
             | inr ErrRange =>
                 if neg then (- 2 ^ 63, Some (NumError (String a r) ErrRange))
                 else (2 ^ 63 - 1, Some (NumError (String a r) ErrRange))
             | inl un =>
                 if negb neg && (2 ^ 63 <=? un)
                 then (2 ^ 63 - 1, Some (NumError (String a r) ErrRange))
                 else if neg && (2 ^ 63 <? un)
                      then (- 2 ^ 63, Some (NumError (String a r) ErrRange))
                      else (if neg then - un else un, None)
             end = (z, None) -> - 2 ^ 63 <= z < 2 ^ 63).
  { intros neg s'. destruct (ParseUint s') as [un|[|]] eqn:Hu;
      [|discriminate|destruct neg; discriminate].
    apply ParseUint_nonneg in Hu.
    destruct neg; cbn [negb andb].
    - destruct (2 ^ 63 <? un) eqn:E; [discriminate|].
      apply Z.ltb_ge in E. intros [= <-]. lia.
    - destruct (2 ^ 63 <=? un) eqn:E; [discriminate|].
      apply Z.leb_gt in E. intros [= <-]. lia. }
  destruct (Ascii.eqb a "+"); [apply (K false)|].
  destruct (Ascii.eqb a "-"); [apply (K true)|apply (K false)].
Qed.

Section TTL.

Variable c : client.

(** Whenever [getTokenTTL] returns, either there is no error, the TTL is a
    64-bit signed integer and the TTL metric was updated with it, or there
    is an error, the TTL is -1 and no metric was updated. *)
Theorem getTokenTTL_returns token tr ttl err :
  getTokenTTL c token = (tr, Done (ttl, err)) ->
  (err = None /\ - 2 ^ 63 <= ttl < 2 ^ 63 /\
   metrics tr = [updateVaultTokenTTLMetric ttl]) \/
  (err <> None /\ ttl = -1 /\ metrics tr = []).
Proof.
  unfold getTokenTTL. destruct token as [tok|]; [|discriminate].
  destruct (index (Data tok) "ttl"); try discriminate.
  destruct (Int64 n) as [x [e|]] eqn:Hn; cbn.
  - intros [= <- <- <-]. right. split; [discriminate|]. split; reflexivity.
  - intros [= <- <- <-]. left. split; [reflexivity|].
    split; [exact (ParseInt_range _ _ Hn)|reflexivity].
Qed.

End TTL.

(** * Further properties of the read path *)

Section Read.

Variable c : client.
Variables path key : string.

#[local] Abbreviation readErrors t :=
  (updateVaultSecretReadErrorsCountMetric path (requestedKey key) t).

(** [ReadSecret] by cases on the answer of the store and of the engine. *)
Lemma ReadSecret_cases :
  ReadSecret c path key =
    match logicalRead (logical c) path with
    | (_, Some e) =>
        ([Call (Read path); Metric (readErrors UnknownErrorType)],
         Done ("", Some (ApiError e)))
    | (None, None) =>
        ([Call (Read path); Metric (readErrors BackendSecretNotFoundErrorType)],
         Done ("", Some (BackendSecretNotFoundError BackendSecretNotFoundErrorType
                           path (requestedKey key))))
    | (Some secret, None) =>
        match getData (c_engine c) secret with
        | None =>
            (Call (Read path) ::
             map (fun w => Log logger Warning w []) (Warnings secret) ++
             [Metric (readErrors BackendSecretNotFoundErrorType)],
             Done ("", Some (BackendSecretNotFoundError BackendSecretNotFoundErrorType
                               path (requestedKey key))))
        | Some payload =>
            match default VNil (payload !! requestedKey key) with
            | VNil =>
                ([Call (Read path); Metric (readErrors BackendSecretNotFoundErrorType)],
                 Done ("", Some (BackendSecretNotFoundError
                                   BackendSecretNotFoundErrorType
                                   path (requestedKey key))))
            | VString s => ([Call (Read path)], Done (s, None))
            | v => ([Call (Read path)], Panicked (InterfaceConversion "string" v))
            end
        end
    end.
Proof.
  destruct (logicalRead (logical c) path) as [[secret|] [e|]] eqn:H.
  - apply (ReadSecret_store_error _ _ _ _ _ H).
  - destruct (getData (c_engine c) secret) as [payload|] eqn:Hd.
    + apply (ReadSecret_payload _ _ _ _ _ H Hd).
    + apply (ReadSecret_no_payload _ _ _ _ H Hd).
  - apply (ReadSecret_store_error _ _ _ _ _ H).
  - apply (ReadSecret_nil_response _ _ _ H).
Qed.

Lemma calls_warnings ws tr :
  calls (map (fun w => Log logger Warning w []) ws ++ tr) = calls tr.
Proof. induction ws as [|w ws IH]; [reflexivity|exact IH]. Qed.

Lemma metrics_warnings ws tr :
  metrics (map (fun w => Log logger Warning w []) ws ++ tr) = metrics tr.
Proof. induction ws as [|w ws IH]; [reflexivity|exact IH]. Qed.

Lemma logs_warnings ws :
  logs (map (fun w => Log logger Warning w []) ws) =
  map (fun w => Log logger Warning w []) ws.
Proof.
  induction ws as [|w ws IH]; [reflexivity|].
  cbn [map]. unfold logs in *. cbn. now rewrite IH.
Qed.

(** [ReadSecret] makes one call to the store, the read of the path, whatever
    the answer: it never retries and never touches the token. *)
Theorem ReadSecret_one_read :
  calls (fst (ReadSecret c path key)) = [Read path].
Proof.
  rewrite ReadSecret_cases.
  destruct (logicalRead (logical c) path) as [[secret|] [e|]]; try reflexivity.
  destruct (getData (c_engine c) secret) as [payload|].
  - now destruct (default VNil (payload !! requestedKey key)).
  - cbn [fst]. change (Call (Read path) :: ?l) with ([Call (Read path)] ++ l).
    rewrite calls_app, calls_warnings. reflexivity.
Qed.

(** The four outcomes of [ReadSecret].  A value comes with no error and no
    metric update; an error comes with the empty string and one update of
    the read-errors metric, of the type of the error; a panic comes from the
    conversion of the value to a string, with no metric update. *)
Theorem ReadSecret_outcomes :
  let r := ReadSecret c path key in
  (exists s, snd r = Done (s, None) /\ metrics (fst r) = [] /\ logs (fst r) = [])
  \/ (exists e, snd r = Done ("", Some (ApiError e)) /\
                metrics (fst r) = [readErrors UnknownErrorType])
  \/ (snd r = Done ("", Some (BackendSecretNotFoundError BackendSecretNotFoundErrorType
                                path (requestedKey key))) /\
      metrics (fst r) = [readErrors BackendSecretNotFoundErrorType])
  \/ (exists v, snd r = Panicked (InterfaceConversion "string" v) /\
                (forall s, v <> VString s) /\ v <> VNil /\
                metrics (fst r) = []).
Proof.
  cbv zeta. rewrite ReadSecret_cases.
  destruct (logicalRead (logical c) path) as [[secret|] [e|]].
  - right; left. now exists e.
  - destruct (getData (c_engine c) secret) as [payload|].
    + destruct (default VNil (payload !! requestedKey key)) eqn:Hv.
      1: right; right; left; split; reflexivity.
      3: left; eexists; repeat split; reflexivity.
      all: right; right; right; eexists; repeat split; try reflexivity;
        discriminate.
    + right; right; left. split; [reflexivity|]. cbn [fst].
      change (Call (Read path) :: ?l) with ([Call (Read path)] ++ l).
      unfold metrics at 1. rewrite omap_app. fold (metrics).
      cbn [omap app]. apply metrics_warnings.
  - right; left. now exists e.
  - right; right; left. split; reflexivity.
Qed.

(** A failed call to the store wins over whatever response came with it:
    [ReadSecret] returns the error of the store exactly when the call
    failed. *)
Theorem ReadSecret_store_error_iff e :
  snd (ReadSecret c path key) = Done ("", Some (ApiError e)) <->
  snd (logicalRead (logical c) path) = Some e.
Proof.
  rewrite ReadSecret_cases.
  destruct (logicalRead (logical c) path) as [[secret|] [e'|]]; cbn [snd].
  - split; intros [= ->]; reflexivity.
  - split; [|discriminate].
    destruct (getData (c_engine c) secret) as [payload|]; [|discriminate].
    destruct (default VNil (payload !! requestedKey key)); discriminate.
  - split; intros [= ->]; reflexivity.
  - split; discriminate.
Qed.

(** The warnings of a response are logged exactly when the engine extracts
    no payload from it, all of them and in their order; in every other case
    [ReadSecret] logs nothing. *)
Theorem ReadSecret_logs :
  logs (fst (ReadSecret c path key)) =
    match logicalRead (logical c) path with
    | (Some secret, None) =>
        match getData (c_engine c) secret with
        | None => map (fun w => Log logger Warning w []) (Warnings secret)
        | Some _ => []
        end
    | _ => []
    end.
Proof.
  rewrite ReadSecret_cases.
  destruct (logicalRead (logical c) path) as [[secret|] [e|]]; try reflexivity.
  destruct (getData (c_engine c) secret) as [payload|].
  - now destruct (default VNil (payload !! requestedKey key)).
  - cbn [fst]. unfold logs. cbn [List.filter isLog].
    rewrite List.filter_app. cbn [List.filter isLog].
    rewrite app_nil_r. apply logs_warnings.
Qed.

End Read.

(** * Properties of the construction of the client *)

Section Build.

Variable newEngine : string -> engine * option error.
Variable l : bool.
Variable w : boot.
Variable cfg : Config.

(** [vaultClient] returns a client exactly when the three steps succeed:
    the client of the API is built, the health check answers, and the
    engine of the configuration exists. *)
Theorem vaultClient_client_iff :
  (exists tr cl err, vaultClient newEngine l w cfg = (tr, Done (Some cl, err))) <->
  newClientErr w = None /\
  (exists h, health w = (Some h, None)) /\
  snd (newEngine (VaultEngine cfg)) = None.
Proof.
  unfold vaultClient.
  destruct (newClientErr w) as [e|].
  { split; [intros (tr & cl & err & H); discriminate H|intros [H _]; discriminate H]. }
  destruct (health w) as [[h|] [e|]].
  1,3,4: split; [intros (tr & cl & err & H); discriminate H
                |intros (_ & [h' H] & _); discriminate H].
  destruct (newEngine (VaultEngine cfg)) as [eng [e|]]; cbn [snd].
  - split; [intros (tr & cl & err & H); discriminate H|intros (_ & _ & H); discriminate H].
  - split; [intros _; eauto|intros _; eauto].
Qed.

(** Whenever [vaultClient] returns, it returns either a client or an error,
    never both and never neither, and it has started the renewal goroutine
    exactly when it returns a client. *)
Theorem vaultClient_client_xor_error tr ocl oerr :
  vaultClient newEngine l w cfg = (tr, Done (ocl, oerr)) ->
  (ocl = None <-> oerr <> None) /\
  (In StartTokenRenewer tr <-> ocl <> None).
Proof.
  assert (failed : forall tr' e,
             (tr', Done (@None client, Some e)) = (tr, Done (ocl, oerr)) ->
             ~ In StartTokenRenewer tr' ->
             (ocl = None <-> oerr <> None) /\
             (In StartTokenRenewer tr <-> ocl <> None)).
  { intros tr' e [= <- <- <-] Hn. split; split; try discriminate; try reflexivity.
    - intros H. now elim Hn.
    - intros H. now elim H. }
  unfold vaultClient.
  destruct (newClientErr w) as [e|].
  { intros H. apply (failed _ _ H). cbn. intuition discriminate. }
  destruct (health w) as [[h|] [e|]]; try discriminate.
  1,3: intros H; apply (failed _ _ H); cbn; intuition discriminate.
  destruct (newEngine (VaultEngine cfg)) as [eng [e|]].
  - intros H. apply (failed _ _ H). cbn. intuition discriminate.
  - intros [= <- <- <-]. split; split; try discriminate.
    + intros H. now elim H.
    + intros _. cbn. intuition.
Qed.

(** The client that [vaultClient] builds follows the configuration: it finds
    a token due for renewal exactly below [VaultMaxTokenTTL], asks the store
    for [VaultRenewTTLIncrement] when it renews, and reads through the
    engine of the configured name. *)
Theorem built_client_policy tr cl err :
  vaultClient newEngine l w cfg = (tr, Done (Some cl, err)) ->
  (forall ttl, snd (shouldRenewToken cl ttl) = Done true <-> ttl < VaultMaxTokenTTL cfg) /\
  (forall TokenIsRenewable t token,
      TokenIsRenewable token = (true, None) ->
      calls (fst (renewToken TokenIsRenewable cl t token)) =
        [RenewSelf (VaultRenewTTLIncrement cfg)]) /\
  c_engine cl = fst (newEngine (VaultEngine cfg)) /\
  logical cl = connLogical w.
Proof.
  unfold vaultClient.
  destruct (newClientErr w) as [e|]; [discriminate|].
  destruct (health w) as [[h|] [e|]]; try discriminate.
  destruct (newEngine (VaultEngine cfg)) as [eng [e|]]; [discriminate|].
  intros [= <- <- <-]. split; [|split; [|split; reflexivity]].
  - intros ttl. unfold shouldRenewToken. cbn [maxTokenTTL].
    destruct (ttl <? VaultMaxTokenTTL cfg) eqn:E; cbn.
    + apply Z.ltb_lt in E. tauto.
    + apply Z.ltb_ge in E. split; [discriminate|lia].
  - intros TIR t token H. rewrite renewToken_cases, H.
    now destruct (renewSelf t).
Qed.

End Build.

(** * The further properties at work *)

Lemma cancellation_ends_loop_witness :
  startTokenRenewer renewableField demoClient
    ([renewalSucceeds] ++
     {| woke := CtxDone; lookupSelf := (None, None); renewSelf := None |} ::
     [renewalSucceeds]) =
    (fst (startTokenRenewer renewableField demoClient [renewalSucceeds]) ++
     [Log logger Info "gracefully shutting down token renewal go routine" []],
     Returned).
Proof. apply cancellation_ends_loop; reflexivity. Defined.


Lemma successful_renewal_keeps_polling_witness :
  startTokenRenewer renewableField demoClient ([renewalFails] ++ renewalSucceeds :: [healthy]) =
    (fst (startTokenRenewer renewableField demoClient [renewalFails]) ++
     [Call LookupSelf;
      Metric (updateVaultTokenTTLMetric 5);
      Metric (updateVaultTokenExpiredMetric vaultTokenExpired);
      Log logger Warning "token is really close to expire, current ttl: %d" [AInt 5];
      Call (RenewSelf (renewTTLIncrement demoClient));
      Log logger Info "token renewed successfully!" []] ++
     fst (startTokenRenewer renewableField demoClient [healthy]),
     snd (startTokenRenewer renewableField demoClient [healthy])).
Proof.
  apply successful_renewal_keeps_polling
    with (tok := tokenWith (VNumber "5") true) (n := "5");
    reflexivity.
Defined.

Lemma getTokenTTL_returns_witness :
  (@None error = None /\ - 2 ^ 63 <= 700 < 2 ^ 63 /\
   metrics [Metric (updateVaultTokenTTLMetric 700)] = [updateVaultTokenTTLMetric 700]) \/
  (@None error <> None /\ 700 = -1 /\
   metrics [Metric (updateVaultTokenTTLMetric 700)] = []).
Proof.
  apply (getTokenTTL_returns demoClient (Some (tokenWith (VNumber "700") true))).
  reflexivity.
Defined.

Lemma vaultClient_client_xor_error_witness :
  (@None client = None <-> Some (ApiError "engine not implemented") <> None) /\
  (In StartTokenRenewer
      [SetLogger true; NewClient "https://vault:8200"; SetToken "s.token"; SysHealth;
       Infof "successfully logged into Vault cluster %s" [BStr "vault-a"];
       Debugf "unable to use engine %s: %v"
         [BStr "kv3"; BErr (ApiError "engine not implemented")]]
   <-> @None client <> None).
Proof.
  apply (vaultClient_client_xor_error demoNewEngine true demoBoot
           {| VaultURL := "https://vault:8200"; VaultToken := "s.token";
              VaultEngine := "kv3"; VaultMaxTokenTTL := 600;
              VaultTokenPollingPeriod := 15; VaultRenewTTLIncrement := 3600 |}).
  reflexivity.
Defined.

Lemma built_client_policy_witness :
  (forall ttl, snd (shouldRenewToken demoClient ttl) = Done true <->
               ttl < VaultMaxTokenTTL demoConfig) /\
  (forall TokenIsRenewable t token,
      TokenIsRenewable token = (true, None) ->
      calls (fst (renewToken TokenIsRenewable demoClient t token)) =
        [RenewSelf (VaultRenewTTLIncrement demoConfig)]) /\
  c_engine demoClient = fst (demoNewEngine (VaultEngine demoConfig)) /\
  logical demoClient = connLogical demoBoot.
Proof.
  apply (built_client_policy demoNewEngine true demoBoot demoConfig
           (fst (vaultClient demoNewEngine true demoBoot demoConfig)) demoClient None).
  reflexivity.
Defined.
